(** * Product detail view ([src/app/products/[id]/page.js])

    A shallow embedding of the [ProductDetails] React component: the
    values it reads from the product record, the five [useState] cells,
    the data-loading effect with its [try]/[catch]/[finally], the event
    handlers and the render function, followed by the properties of the
    view that are stated in the specification. *)

From Stdlib Require Import ZArith QArith Qround List String Bool Lia.
Import ListNotations.
Open Scope string_scope.
Open Scope Z_scope.

(** ** Exceptions and fallible computations *)

Module Js.

(** The exceptions that the component or the platform can raise. *)
Inductive Exn : Type :=
| TypeError                 (* property read on [null]/[undefined] *)
| RangeError                (* [Array(n)] with an invalid length *)
| SyntaxError               (* [response.json()] on a malformed body *)
| NetworkFailure            (* [fetch] rejected *)
| Error (message : string)  (* [new Error(message)] *)
| InvalidChild.             (* React: an object used as a child *)

Inductive Result (A : Type) : Type :=
| Ok (a : A)
| Throw (e : Exn).
Arguments Ok {A} a.
Arguments Throw {A} e.

Definition bind {A B} (r : Result A) (k : A -> Result B) : Result B :=
  match r with
  | Ok a => k a
  | Throw e => Throw e
  end.

Notation "x <- c ;; k" := (bind c (fun x => k))
  (at level 61, c at next level, right associativity).

Fixpoint mapM {A B} (f : A -> Result B) (l : list A) : Result (list B) :=
  match l with
  | [] => Ok []
  | a :: l' => b <- f a ;; bs <- mapM f l' ;; Ok (b :: bs)
  end.

(** ** JavaScript values read from the JSON record

    Finite numbers are rationals: every finite double is one, and
    [Math.round] on a finite double is exact. *)
#[warnings="-register-all"] Inductive Value : Type :=
| Undefined
| Null
| NaN
| Number (q : Q)
| Object (props : list (string * Value)).

(** [ToBoolean]. *)
Definition truthy (v : Value) : bool :=
  match v with
  | Undefined | Null | NaN => false
  | Number q => negb (Qeq_bool q 0)
  | Object _ => true
  end.

(** [a || b]. *)
Definition or (a b : Value) : Value :=
  if truthy a then a else b.

Fixpoint lookup (k : string) (props : list (string * Value)) : Value :=
  match props with
  | [] => Undefined
  | (k', v) :: rest => if String.eqb k k' then v else lookup k rest
  end.

(** [v?.k]. *)
Definition get_opt (v : Value) (k : string) : Value :=
  match v with
  | Undefined | Null => Undefined
  | NaN | Number _ => Undefined
  | Object props => lookup k props
  end.

(** [Math.round(v)]: [None] stands for the result [NaN]. The argument is
    first converted with [ToNumber]; a finite number is rounded to the
    nearest integer, a tie going up. *)
Definition Math_round (v : Value) : option Z :=
  match v with
  | Undefined | NaN | Object _ => None
  | Null => Some 0
  | Number q => Some (Qfloor (q + (1 # 2)))
  end.

(** [Array(len).fill(g)]: the length must be an integer below [2^32]. *)
Definition Array_fill {A} (len : option Z) (g : A) : Result (list A) :=
  match len with
  | None => Throw RangeError
  | Some n =>
      if (0 <=? n) && (n <? 2 ^ 32)
      then Ok (repeat g (Z.to_nat n))
      else Throw RangeError
  end.

(** [arr.join('')]. *)
Definition join (arr : list string) : string := String.concat "" arr.

(** [arr[i]]. *)
Definition index {A} (arr : list A) (i : Z) : option A :=
  if i <? 0 then None else nth_error arr (Z.to_nat i).

(** [arr.length]. *)
Definition length {A} (arr : list A) : Z := Z.of_nat (List.length arr).

(** [arr.map((x, i) => f(x, i))], the index counted from [from]. *)
Fixpoint map_from {A B} (f : A -> Z -> B) (from : Z) (arr : list A) : list B :=
  match arr with
  | [] => []
  | x :: rest => f x from :: map_from f (from + 1) rest
  end.

Definition map {A B} (f : A -> Z -> B) (arr : list A) : list B :=
  map_from f 0 arr.

(** A value used as a React child: [null] and [undefined] print nothing,
    a number prints itself, an object is refused. *)
Definition child (v : Value) : Result Value :=
  match v with
  | Object _ => Throw InvalidChild
  | _ => Ok v
  end.

End Js.

Import Js.

(** ** Star glyphs (lines 180 and 223) *)

Definition star : string := "★".

(** [Array(Math.round(v || 0)).fill('★')], before the [join]. *)
Definition star_glyphs (v : Value) : Result (list string) :=
  Array_fill (Math_round (Js.or v (Number 0))) star.

(** [Array(Math.round(v || 0)).fill('★').join('')]. *)
Definition stars (v : Value) : Result string :=
  arr <- star_glyphs v ;; Ok (join arr).


(** ** Data model: the record returned by the API *)

Module Review.
Record t : Type := {
  reviewerName : string;
  date : string;
  comment : string;
  rating : Value
}.
End Review.

Record Product : Type := {
  title : string;
  price : Q;
  category : string;
  description : string;
  stock : Z;
  images : list string;
  tags : option (list string);
  rating : Value;
  reviews : option (list Review.t)
}.

(** ** Component state: the five [useState] cells (lines 33-37) *)

Record State : Type := {
  product : option Product;
  loading : bool;
  error : option string;
  currentImageIndex : Z;
  reviewsVisible : bool
}.

Definition initial_state : State :=
  {| product := None; loading := true; error := None;
     currentImageIndex := 0; reviewsVisible := false |}.

Definition setProduct (p : option Product) (s : State) : State :=
  {| product := p; loading := loading s; error := error s;
     currentImageIndex := currentImageIndex s;
     reviewsVisible := reviewsVisible s |}.

Definition setLoading (b : bool) (s : State) : State :=
  {| product := product s; loading := b; error := error s;
     currentImageIndex := currentImageIndex s;
     reviewsVisible := reviewsVisible s |}.

Definition setError (e : option string) (s : State) : State :=
  {| product := product s; loading := loading s; error := e;
     currentImageIndex := currentImageIndex s;
     reviewsVisible := reviewsVisible s |}.

(** [setCurrentImageIndex(prevIndex => f(prevIndex))]. *)
Definition setCurrentImageIndex (f : Z -> Z) (s : State) : State :=
  {| product := product s; loading := loading s; error := error s;
     currentImageIndex := f (currentImageIndex s);
     reviewsVisible := reviewsVisible s |}.

Definition setReviewsVisible (b : bool) (s : State) : State :=
  {| product := product s; loading := loading s; error := error s;
     currentImageIndex := currentImageIndex s;
     reviewsVisible := b |}.

(** ** Code that runs against the state and may throw *)

Module Action.

Definition t (A : Type) : Type := State -> Result A * State.

Definition ret {A} (a : A) : t A := fun s => (Ok a, s).

Definition bind {A B} (c : t A) (k : A -> t B) : t B :=
  fun s =>
    match c s with
    | (Ok a, s') => k a s'
    | (Throw e, s') => (Throw e, s')
    end.

(** A state setter: never throws. *)
Definition set (f : State -> State) : t unit := fun s => (Ok tt, f s).

(** The completion of an awaited promise, delivered to the caller. *)
Definition await {A} (r : Result A) : t A := fun s => (r, s).

(** [try { body } catch (err) { handler }]. *)
Definition try_catch {A} (body : t A) (handler : Exn -> t A) : t A :=
  fun s =>
    match body s with
    | (Ok a, s') => (Ok a, s')
    | (Throw e, s') => handler e s'
    end.

(** [try { body } finally { fin }]: [fin] always runs; the completion is
    that of [body] unless [fin] itself throws. *)
Definition try_finally {A} (body : t A) (fin : t unit) : t A :=
  fun s =>
    match body s with
    | (r, s') =>
        match fin s' with
        | (Ok _, s'') => (r, s'')
        | (Throw e, s'') => (Throw e, s'')
        end
    end.

End Action.

Notation "'do' x <- c ; k" := (Action.bind c (fun x => k))
  (at level 10, x name, c at level 100, k at level 200).
Notation "c ;; k" := (Action.bind c (fun _ => k))
  (at level 61, right associativity).

(** ** The request (lines 15-21) *)

Record Response : Type := {
  status : Z;
  json : Result Product        (* what [response.json()] settles to *)
}.

(** [response.ok]: the status is in the range 200-299. *)
Definition ok (r : Response) : bool :=
  (200 <=? status r) && (status r <=? 299).

(** How [fetch(url)] settles: it rejects on a network failure and is
    fulfilled with a response, whatever its status, otherwise. *)
Inductive FetchOutcome : Type :=
| Rejected
| Fulfilled (response : Response).

Definition fetch (o : FetchOutcome) : Result Response :=
  match o with
  | Rejected => Throw NetworkFailure
  | Fulfilled r => Ok r
  end.

Definition fetchProductDetails (o : FetchOutcome) : Result Product :=
  response <- fetch o ;;
  if negb (ok response)
  then Throw (Error "Failed to fetch product details")
  else json response.

(** ** The loading effect (lines 42-56)

    [loadProductDetails] runs up to its [await] when the effect fires
    and resumes when the request settles. *)

Definition load_failed_message : string :=
  "Failed to load product details. Please try again later.".

Definition loadProductDetails_start : Action.t unit :=
  Action.set (setLoading true) ;;
  Action.set (setError None).

Definition loadProductDetails_resume (o : FetchOutcome) : Action.t unit :=
  Action.try_finally
    (Action.try_catch
       (do productData <- Action.await (fetchProductDetails o) ;
        Action.set (setProduct (Some productData)))
       (fun err => Action.set (setError (Some load_failed_message))))
    (Action.set (setLoading false)).

Definition loadProductDetails (o : FetchOutcome) : Action.t unit :=
  loadProductDetails_start ;; loadProductDetails_resume o.

(** ** Event handlers (lines 69-82, 157, 207) *)

Definition handleNextImage (p : Product) : State -> State :=
  setCurrentImageIndex (fun prevIndex =>
    if prevIndex =? Js.length (images p) - 1 then 0 else prevIndex + 1).

Definition handlePreviousImage (p : Product) : State -> State :=
  setCurrentImageIndex (fun prevIndex =>
    if prevIndex =? 0 then Js.length (images p) - 1 else prevIndex - 1).

(** [() => setCurrentImageIndex(index)] of a thumbnail. *)
Definition handleThumbnailClick (index : Z) : State -> State :=
  setCurrentImageIndex (fun _ => index).

(** [() => setReviewsVisible(!reviewsVisible)]: the closure holds the
    [reviewsVisible] of the render that created it. *)
Definition handleToggleReviews (rendered : State) : State -> State :=
  setReviewsVisible (negb (reviewsVisible rendered)).

(** ** What the component renders (lines 58-244) *)

Record Badge : Type := {
  badge_class : string;
  badge_text : string
}.

(** The stock badge (lines 93-99). *)
Definition stock_badge (stock : Z) : Badge :=
  {| badge_class := if stock >? 0 then "bg-indigo-600" else "bg-red-500";
     badge_text := if stock >? 0 then "In Stock" else "Out of Stock" |}.

Record Thumbnail : Type := {
  thumb_key : Z;
  thumb_selected : bool;       (* [index === currentImageIndex] *)
  thumb_target : Z;            (* the index its [onClick] stores *)
  thumb_src : string;
  thumb_alt : Z                (* the number in [`Image ${index + 1}`] *)
}.

Definition render_thumbnail (current : Z) (image : string) (index : Z)
  : Thumbnail :=
  {| thumb_key := index;
     thumb_selected := index =? current;
     thumb_target := index;
     thumb_src := image;
     thumb_alt := index + 1 |}.

(** The thumbnail strip (lines 147-167): [None] when it is not rendered. *)
Definition render_thumbnails (imgs : list string) (current : Z)
  : option (list Thumbnail) :=
  if Js.length imgs >? 1
  then Some (Js.map (render_thumbnail current) imgs)
  else None.

Record ReviewCard : Type := {
  card_key : Z;
  card_reviewerName : string;
  card_date : string;   (* the argument of [new Date(..).toLocaleDateString()] *)
  card_comment : string;
  card_stars : string
}.

(** One review (lines 216-225). *)
Definition render_review (ri : Review.t * Z) : Result ReviewCard :=
  glyphs <- stars (Review.rating (fst ri)) ;;
  Ok {| card_key := snd ri;
        card_reviewerName := Review.reviewerName (fst ri);
        card_date := Review.date (fst ri);
        card_comment := Review.comment (fst ri);
        card_stars := glyphs |}.

Inductive ReviewsPanel : Type :=
| ReviewList (cards : list ReviewCard)
| EmptyState (message : string).

(** [product.reviews?.length > 0]. *)
Definition has_reviews (rs : option (list Review.t)) : bool :=
  match rs with
  | None => false
  | Some l => Js.length l >? 0
  end.

(** The body of the reviews panel (lines 214-229). *)
Definition render_reviews (rs : option (list Review.t)) : Result ReviewsPanel :=
  if has_reviews rs
  then match rs with
       | Some l =>
           cards <- mapM render_review (Js.map pair l) ;; Ok (ReviewList cards)
       | None => Throw TypeError
       end
  else Ok (EmptyState "No reviews yet.").

Record Page : Type := {
  page_badge : Badge;
  page_image : option string;          (* [product.images[currentImageIndex]] *)
  page_image_alt : string;
  page_thumbnails : option (list Thumbnail);
  page_title : string;
  page_price : Q;
  page_category : string;
  page_description : string;
  page_rating_stars : string;          (* line 180 *)
  page_rating : Value;                 (* line 182 *)
  page_stock : Z;
  page_tags : option (list string);
  page_reviews_button : string;
  page_reviews : option ReviewsPanel   (* [None]: the panel is hidden *)
}.

Inductive View : Type :=
| LoadingView
| ErrorPageView (message : string)
| ProductView (page : Page).

(** [if (error)]: [null] and the empty string are falsy. *)
Definition error_truthy (e : option string) : option string :=
  match e with
  | None => None
  | Some m => if String.eqb m "" then None else Some m
  end.

Definition render_page (p : Product) (s : State) : Result Page :=
  glyphs <- stars (get_opt (rating p) "rate") ;;
  panel <- (if reviewsVisible s
            then r <- render_reviews (reviews p) ;; Ok (Some r)
            else Ok None) ;;
  rated <- child (rating p) ;;
  Ok {| page_badge := stock_badge (stock p);
        page_image := Js.index (images p) (currentImageIndex s);
        page_image_alt := title p;
        page_thumbnails := render_thumbnails (images p) (currentImageIndex s);
        page_title := title p;
        page_price := price p;
        page_category := category p;
        page_description := description p;
        page_rating_stars := glyphs;
        page_rating := rated;
        page_stock := stock p;
        page_tags := tags p;
        page_reviews_button :=
          if reviewsVisible s then "Hide Reviews" else "Show Reviews";
        page_reviews := panel |}.

(** The component body after the hooks. A [null] product past the two
    early returns makes [product.images] throw. *)
Definition render (s : State) : Result View :=
  if loading s then Ok LoadingView
  else match error_truthy (error s) with
       | Some message => Ok (ErrorPageView message)
       | None =>
           match product s with
           | None => Throw TypeError
           | Some p => page <- render_page p s ;; Ok (ProductView page)
           end
       end.

(** ** Carousel operations on a rendered product *)

Inductive CarouselOp : Type :=
| Next
| Previous
| SelectThumbnail (k : Z).

Definition carousel_step (p : Product) (op : CarouselOp) : State -> State :=
  match op with
  | Next => handleNextImage p
  | Previous => handlePreviousImage p
  | SelectThumbnail k => handleThumbnailClick k
  end.

Definition carousel_run (p : Product) (ops : list CarouselOp) (s : State)
  : State :=
  fold_left (fun st op => carousel_step p op st) ops s.

(** A thumbnail that exists: its index ranges over the images. *)
Definition op_in_range (p : Product) (op : CarouselOp) : Prop :=
  match op with
  | SelectThumbnail k => 0 <= k < Js.length (images p)
  | _ => True
  end.

Definition index_in_range (p : Product) (s : State) : Prop :=
  0 <= currentImageIndex s < Js.length (images p).

(** [n] clicks on the reviews button, each one on the render that
    follows the previous click. *)
Fixpoint toggle_clicks (n : nat) (s : State) : State :=
  match n with
  | O => s
  | S n' => let s' := toggle_clicks n' s in handleToggleReviews s' s'
  end.

(** ** The mounted component and its events

    The component is driven by its props, by the requests that settle
    and by clicks. A request is remembered by the identifier it was
    issued for; [api] gives what the server answers for an identifier. *)

Record App : Type := {
  id : string;                 (* [params.id] of the last render *)
  view : State;
  pending : list string        (* requests in flight, oldest first *)
}.

Inductive Event : Type :=
| IdChange (new_id : string)
| Settle (k : nat)             (* the [k]-th pending request settles *)
| ClickNext
| ClickPrevious
| ClickThumbnail (k : nat)
| ClickToggleReviews.

Fixpoint remove_nth {A} (k : nat) (l : list A) : list A :=
  match l, k with
  | [], _ => []
  | _ :: rest, O => rest
  | x :: rest, S k' => x :: remove_nth k' rest
  end.

(** First render with the initial state, then the effect fires. *)
Definition mount (first_id : string) : App :=
  {| id := first_id;
     view := snd (loadProductDetails_start initial_state);
     pending := [first_id] |}.

(** A click reaches a handler only if the product page is on screen. *)
Definition click (h : Product -> Page -> State -> State) (a : App) : App :=
  match render (view a), product (view a) with
  | Ok (ProductView page), Some p =>
      {| id := id a; view := h p page (view a); pending := pending a |}
  | _, _ => a
  end.

Section Server.

Variable api : string -> FetchOutcome.

Definition step (a : App) (ev : Event) : App :=
  match ev with
  | IdChange new_id =>
      (* the effect depends on [id] only (line 56) *)
      if String.eqb new_id (id a) then a
      else {| id := new_id;
              view := snd (loadProductDetails_start (view a));
              pending := pending a ++ [new_id] |}
  | Settle k =>
      match nth_error (pending a) k with
      | Some requested =>
          {| id := id a;
             view := snd (loadProductDetails_resume (api requested) (view a));
             pending := remove_nth k (pending a) |}
      | None => a
      end
  | ClickNext => click (fun p _ => handleNextImage p) a
  | ClickPrevious => click (fun p _ => handlePreviousImage p) a
  | ClickThumbnail k =>
      click (fun _ page s =>
               match page_thumbnails page with
               | Some thumbs =>
                   match nth_error thumbs k with
                   | Some t => handleThumbnailClick (thumb_target t) s
                   | None => s
                   end
               | None => s
               end) a
  | ClickToggleReviews => click (fun _ _ s => handleToggleReviews s s) a
  end.

Definition run (a : App) (evs : list Event) : App := fold_left step evs a.

(** The product the server holds for an identifier, if it answers with
    a success status and a well-formed body. *)
Definition served (i : string) : option Product :=
  match fetchProductDetails (api i) with
  | Ok p => Some p
  | Throw _ => None
  end.

End Server.

(** ** Sample records *)

Definition phone : Product :=
  {| title := "Phone"; price := 599 # 1; category := "electronics";
     description := "A phone."; stock := 3;
     images := ["phone-1.jpg"; "phone-2.jpg"; "phone-3.jpg"];
     tags := Some ["mobile"];
     rating := Number (46 # 10);
     reviews :=
       Some [ {| Review.reviewerName := "Ann"; Review.date := "2024-05-01";
                 Review.comment := "Great"; Review.rating := Number (46 # 10) |};
              {| Review.reviewerName := "Bob"; Review.date := "2024-05-02";
                 Review.comment := "Fine"; Review.rating := Number (44 # 10) |} ] |}.

Definition lamp : Product :=
  {| title := "Lamp"; price := 25 # 1; category := "home";
     description := "A lamp."; stock := 0;
     images := ["lamp.jpg"];
     tags := None;
     rating := Number (44 # 10);
     reviews := Some [] |}.

(** The same phone with its rating given as [{ rate: 4.6 }]. *)
Definition phone_structured : Product :=
  {| title := title phone; price := price phone; category := category phone;
     description := description phone; stock := stock phone;
     images := images phone; tags := tags phone;
     rating := Object [("rate", Number (46 # 10))];
     reviews := reviews phone |}.

Definition ready (p : Product) : State :=
  {| product := Some p; loading := false; error := None;
     currentImageIndex := 0; reviewsVisible := false |}.

Definition sample_api (i : string) : FetchOutcome :=
  if String.eqb i "1" then Fulfilled {| status := 200; json := Ok phone |}
  else if String.eqb i "2" then Fulfilled {| status := 200; json := Ok lamp |}
  else Fulfilled {| status := 404; json := Throw SyntaxError |}.

(** The view after a failed load: the fixed message is stored, the
    product cell is left as it was and the error page is on screen. *)
Definition load_failed (before after : State) : Prop :=
  error after = Some load_failed_message /\
  product after = product before /\
  render after = Ok (ErrorPageView load_failed_message).

(** A rendered card shows its review. *)
Definition card_of (r : Review.t) (c : ReviewCard) : Prop :=
  card_reviewerName c = Review.reviewerName r /\
  card_date c = Review.date r /\
  card_comment c = Review.comment r /\
  stars (Review.rating r) = Ok (card_stars c).





(** A trace in which the identifier changes only when no request is in
    flight. *)
Fixpoint sequential (api : string -> FetchOutcome) (a : App)
    (evs : list Event) : bool :=
  match evs with
  | [] => true
  | ev :: rest =>
      match ev with
      | IdChange new_id =>
          String.eqb new_id (id a) ||
          match pending a with [] => true | _ :: _ => false end
      | _ => true
      end && sequential api (step api a ev) rest
  end.

(** The phases of the data-loading state machine, for the identifier of
    the last render: loading with its request in flight, or settled as
    ready or failed. *)
Definition load_phase (api : string -> FetchOutcome) (a : App) : Prop :=
  (pending a = [id a] /\ loading (view a) = true /\ error (view a) = None /\
   render (view a) = Ok LoadingView) \/
  (pending a = [] /\ loading (view a) = false /\
   match served api (id a) with
   | Some p => product (view a) = Some p /\ error (view a) = None
   | None => render (view a) = Ok (ErrorPageView load_failed_message)
   end).

(** The events that come from the page, as opposed to the router and
    the network. *)
Definition is_click (ev : Event) : bool :=
  match ev with
  | IdChange _ | Settle _ => false
  | ClickNext | ClickPrevious | ClickThumbnail _ | ClickToggleReviews => true
  end.

(** * Properties *)

(** ** Rounding and star glyphs *)

Lemma Qfloor_spec (x : Q) (n : Z) :
  Qfloor x = n <-> (inject_Z n <= x /\ x < inject_Z (n + 1))%Q.
Proof.
  split.
  - intros <-. split; [apply Qfloor_le | apply Qlt_floor].
  - intros [Hlo Hhi]. apply Z.le_antisymm.
    + apply Z.lt_succ_r. rewrite <- Z.add_1_r.
      destruct (Z_lt_le_dec (Qfloor x) (n + 1)) as [|Hge]; [assumption|].
      exfalso. apply (Qlt_irrefl x).
      eapply Qlt_le_trans; [exact Hhi|].
      eapply Qle_trans; [|apply Qfloor_le].
      rewrite <- Zle_Qle. exact Hge.
    + rewrite <- (Qfloor_Z n). apply Qfloor_resp_le. exact Hlo.
Qed.

(** [Math.round] is rounding to the nearest integer with ties going up:
    the result [n] is the integer with [n - 1/2 <= q < n + 1/2]. *)
Lemma Math_round_half_up (q : Q) (n : Z) :
  Math_round (Number q) = Some n <->
  (inject_Z n - (1 # 2) <= q /\ q < inject_Z n + (1 # 2))%Q.
Proof.
  unfold Math_round. split.
  - intros H.
    assert (H' : Qfloor (q + (1 # 2)) = n) by congruence.
    apply Qfloor_spec in H'. destruct H' as [Hlo Hhi]. rewrite inject_Z_plus in Hhi.
    change (inject_Z 1) with 1%Q in Hhi. split.
    + apply Qplus_le_l with (z := 1 # 2).
      eapply Qle_trans; [|exact Hlo]. apply Qle_lteq. right. ring.
    + apply Qplus_lt_l with (z := 1 # 2).
      eapply Qlt_le_trans; [exact Hhi|]. apply Qle_lteq. right. ring.
  - intros [Hlo Hhi]. f_equal. apply Qfloor_spec. split.
    + apply Qplus_le_l with (z := (- (1 # 2))%Q).
      eapply Qle_trans; [|eapply Qle_trans; [exact Hlo|]];
        apply Qle_lteq; right; ring.
    + rewrite inject_Z_plus. change (inject_Z 1) with 1%Q.
      apply Qplus_lt_l with (z := (- (1 # 2))%Q).
      eapply Qle_lt_trans; [|eapply Qlt_le_trans; [exact Hhi|]];
        apply Qle_lteq; right; ring.
Qed.

(** The star row built from a finite number holds as many glyphs as its
    rounding, whenever that many can be allocated. *)
Lemma star_glyphs_round (q : Q) (n : Z) :
  Math_round (Number q) = Some n ->
  0 <= n < 2 ^ 32 ->
  star_glyphs (Number q) = Ok (repeat star (Z.to_nat n)).
Proof.
  intros Hround Hn. unfold star_glyphs, Js.or, truthy.
  destruct (Qeq_bool q 0) eqn:Hzero; cbn [negb].
  - apply Qeq_bool_iff in Hzero.
    assert (Hq : Qfloor (q + (1 # 2)) = n) by (unfold Math_round in Hround; congruence).
    assert (H0 : n = 0).
    { rewrite <- Hq. rewrite (Qfloor_comp (q + (1 # 2)) (0 + (1 # 2))).
      - reflexivity.
      - rewrite Hzero. reflexivity. }
    rewrite H0. reflexivity.
  - rewrite Hround. unfold Array_fill.
    replace ((0 <=? n) && (n <? 2 ^ 32)) with true; [reflexivity|].
    symmetry. apply andb_true_iff. split; [apply Z.leb_le | apply Z.ltb_lt]; lia.
Qed.

(** A review rating in the range of the data model (0 to 5) is drawn
    with the round-half-up number of glyphs. *)
Lemma review_stars_round_half_up (q : Q) :
  (0 <= q <= 5)%Q ->
  exists n, Math_round (Number q) = Some n /\ 0 <= n <= 5 /\
            star_glyphs (Number q) = Ok (repeat star (Z.to_nat n)).
Proof.
  intros [Hlo Hhi]. exists (Qfloor (q + (1 # 2))).
  assert (Hrange : 0 <= Qfloor (q + (1 # 2)) <= 5).
  { split.
    - change 0 with (Qfloor (0 + (1 # 2))). apply Qfloor_resp_le.
      apply Qplus_le_l. exact Hlo.
    - change 5 with (Qfloor (5 + (1 # 2))). apply Qfloor_resp_le.
      apply Qplus_le_l. exact Hhi. }
  split; [reflexivity|]. split; [exact Hrange|].
  apply star_glyphs_round; [reflexivity|].
  change (2 ^ 32) with 4294967296. lia.
Qed.

Example review_stars_4_6 : stars (Number (46 # 10)) = Ok "★★★★★".
Proof. reflexivity. Qed.

Example review_stars_4_4 : stars (Number (44 # 10)) = Ok "★★★★".
Proof. reflexivity. Qed.

Example review_stars_negative : stars (Number (-1 # 1)) = Throw RangeError.
Proof. reflexivity. Qed.

(** C1. The star row of a review follows the round-half-up rule, but the
    star row of the product reads [product.rating?.rate]: when the
    aggregate rating is the number that line 182 prints, that property
    is [undefined] and no glyph is drawn, whatever the rating; a phone
    rated 4.6, whose rounding is 5, is rendered with an empty star row.
    When the rating is an object with a [rate], line 182 makes the
    render fail. *)
Theorem product_stars_blank_for_numeric_rating :
  (forall q, stars (get_opt (Number q) "rate") = Ok "") /\
  Math_round (rating phone) = Some 5 /\
  (exists page, render (ready phone) = Ok (ProductView page) /\
                page_rating page = Number (46 # 10) /\
                page_rating_stars page = "") /\
  stars (Number (46 # 10)) = Ok (join (repeat star 5)) /\
  stars (Number (44 # 10)) = Ok (join (repeat star 4)) /\
  render (ready phone_structured) = Throw InvalidChild.
Proof.
  split; [intros q; reflexivity|].
  split; [reflexivity|].
  split; [eexists; split; [reflexivity|split; reflexivity]|].
  repeat split.
Qed.

(** ** The loading effect *)

Lemma loadProductDetails_start_eq (s : State) :
  loadProductDetails_start s = (Ok tt, setError None (setLoading true s)).
Proof. reflexivity. Qed.

Lemma loadProductDetails_resume_eq (o : FetchOutcome) (s : State) :
  loadProductDetails_resume o s =
  match fetchProductDetails o with
  | Ok p => (Ok tt, setLoading false (setProduct (Some p) s))
  | Throw _ => (Ok tt, setLoading false (setError (Some load_failed_message) s))
  end.
Proof.
  unfold loadProductDetails_resume, Action.try_finally, Action.try_catch,
    Action.bind, Action.await, Action.set.
  destruct (fetchProductDetails o); reflexivity.
Qed.

(** [response.ok] holds exactly for the statuses 200 to 299. *)
Lemma ok_2xx (r : Response) : ok r = true <-> 200 <= status r <= 299.
Proof.
  unfold ok. rewrite andb_true_iff, Z.leb_le, Z.leb_le. reflexivity.
Qed.

(** The request fails on a network error, on a status outside 200-299
    and on a body that does not parse; it succeeds otherwise. *)
Lemma fetchProductDetails_eq (o : FetchOutcome) :
  fetchProductDetails o =
  match o with
  | Rejected => Throw NetworkFailure
  | Fulfilled r =>
      if ok r then json r else Throw (Error "Failed to fetch product details")
  end.
Proof.
  destruct o as [|r]; [reflexivity|].
  unfold fetchProductDetails, fetch, Js.bind. destruct (ok r); reflexivity.
Qed.

Lemma render_after_failure (s : State) :
  render (setLoading false (setError (Some load_failed_message) s)) =
  Ok (ErrorPageView load_failed_message).
Proof. reflexivity. Qed.

(** C2, as the claim states it, fails: the effect leaves the product
    cell alone when it starts a request. *)
Lemma loading_start_keeps_product :
  ~ (forall s : State,
        error (snd (loadProductDetails_start s)) = None /\
        product (snd (loadProductDetails_start s)) = None).
Proof.
  intros H. destruct (H (ready phone)) as [_ Hproduct]. discriminate Hproduct.
Qed.

(** C2, amended. When the effect starts a request it sets the loading
    flag and clears the error before the request is issued, and leaves
    the product cell as it is; the loading indicator is then on screen,
    and once the request has failed the view is the error page with the
    fixed message, not the product that is still stored. *)
Theorem loading_start_clears_error_only (s : State) (o : FetchOutcome) (e : Exn) :
  fetchProductDetails o = Throw e ->
  let s' := snd (loadProductDetails_start s) in
  let s'' := snd (loadProductDetails_resume o s') in
  (loading s' = true /\ error s' = None /\ product s' = product s /\
   render s' = Ok LoadingView) /\
  (product s'' = product s /\
   render s'' = Ok (ErrorPageView load_failed_message)).
Proof.
  intros Hfail s' s''. subst s' s''.
  rewrite loadProductDetails_resume_eq, Hfail, loadProductDetails_start_eq.
  cbn [snd]. repeat split.
Qed.

Lemma loading_start_clears_error_only_witness :
  fetchProductDetails (sample_api "3") =
    Throw (Error "Failed to fetch product details") /\
  render (snd (loadProductDetails_resume (sample_api "3")
                 (snd (loadProductDetails_start (ready phone))))) =
    Ok (ErrorPageView load_failed_message).
Proof.
  split; [reflexivity|].
  apply (loading_start_clears_error_only (ready phone) (sample_api "3")
           (Error "Failed to fetch product details")).
  reflexivity.
Defined.

(** The effect fires on mount and on every change of the identifier,
    and on nothing else. *)
Lemma effect_fires_on_mount_and_id_change (api : string -> FetchOutcome)
    (a : App) (new_id : string) :
  view (mount new_id) = snd (loadProductDetails_start initial_state) /\
  (new_id <> id a ->
   view (step api a (IdChange new_id)) = snd (loadProductDetails_start (view a)) /\
   pending (step api a (IdChange new_id)) = (pending a ++ [new_id])%list) /\
  (new_id = id a -> step api a (IdChange new_id) = a).
Proof.
  split; [reflexivity|]. unfold step.
  destruct (String.eqb_spec new_id (id a)) as [Heq|Hne].
  - split; [contradiction | reflexivity].
  - split; [intros _; split; reflexivity | contradiction].
Qed.

(** C5, as the claim states it, fails: a response with status 200 whose
    body does not parse leaves the error message set. *)
Lemma ok_response_with_malformed_body :
  ~ (forall (r : Response) (s : State),
        ok r = true ->
        error (snd (loadProductDetails (Fulfilled r) s)) = None).
Proof.
  intros H.
  specialize (H {| status := 200; json := Throw SyntaxError |} initial_state
                eq_refl).
  discriminate H.
Qed.

(** C5, amended. Whatever the request does, [loadProductDetails]
    completes normally (it never rethrows) with the loading flag off.
    On a network error, on a status outside 200-299 and on a body that
    does not parse, it stores the fixed message and the view is the
    error page; on a status in 200-299 with a body that parses, the
    error stays [null] and the parsed product is stored. *)
Theorem load_outcome_handled_locally (o : FetchOutcome) (s : State) :
  fst (loadProductDetails o s) = Ok tt /\
  loading (snd (loadProductDetails o s)) = false /\
  match o with
  | Rejected => load_failed s (snd (loadProductDetails o s))
  | Fulfilled r =>
      if ok r
      then match json r with
           | Ok p => error (snd (loadProductDetails o s)) = None /\
                     product (snd (loadProductDetails o s)) = Some p
           | Throw _ => load_failed s (snd (loadProductDetails o s))
           end
      else load_failed s (snd (loadProductDetails o s))
  end.
Proof.
  unfold loadProductDetails, Action.bind.
  rewrite loadProductDetails_start_eq, loadProductDetails_resume_eq,
    fetchProductDetails_eq.
  destruct o as [|r].
  - repeat split.
  - destruct (ok r); [destruct (json r)|]; repeat split.
Qed.

(** ** Rendering *)

Lemma render_product_view (s : State) (p : Product) (page : Page) :
  product s = Some p ->
  render s = Ok (ProductView page) ->
  render_page p s = Ok page.
Proof.
  unfold render. intros ->.
  destruct (loading s); [discriminate|].
  destruct (error_truthy (error s)); [discriminate|].
  destruct (render_page p s); cbn [Js.bind]; congruence.
Qed.

Lemma render_page_fields (p : Product) (s : State) (page : Page) :
  render_page p s = Ok page ->
  page_badge page = stock_badge (stock p) /\
  page_image page = Js.index (images p) (currentImageIndex s) /\
  page_thumbnails page = render_thumbnails (images p) (currentImageIndex s) /\
  stars (get_opt (rating p) "rate") = Ok (page_rating_stars page) /\
  (if reviewsVisible s
   then exists panel, render_reviews (reviews p) = Ok panel /\
                      page_reviews page = Some panel
   else page_reviews page = None).
Proof.
  unfold render_page.
  destruct (stars (get_opt (rating p) "rate")) as [glyphs|]; [|discriminate].
  cbn [Js.bind]. destruct (reviewsVisible s).
  - destruct (render_reviews (reviews p)) as [panel|]; [|discriminate].
    cbn [Js.bind]. destruct (child (rating p)); [|discriminate].
    cbn [Js.bind]. intros [= <-]. cbn. repeat split. eauto.
  - cbn [Js.bind]. destruct (child (rating p)); [|discriminate].
    cbn [Js.bind]. intros [= <-]. cbn. repeat split.
Qed.

(** ** The image carousel *)

Lemma length_pos {A} (l : list A) : l <> [] -> 0 < Js.length l.
Proof.
  destruct l as [|x l]; [contradiction|]. intros _.
  unfold Js.length. cbn [List.length]. lia.
Qed.

Lemma map_from_nth {A B} (f : A -> Z -> B) (l : list A) :
  forall (from : Z) (k : nat),
    nth_error (map_from f from l) k =
    option_map (fun x => f x (from + Z.of_nat k)) (nth_error l k).
Proof.
  induction l as [|x l IH]; intros from k.
  - destruct k; reflexivity.
  - destruct k as [|k]; cbn [map_from nth_error option_map].
    + f_equal. f_equal. cbn. lia.
    + rewrite IH. destruct (nth_error l k); cbn [option_map]; [|reflexivity].
      f_equal. f_equal. lia.
Qed.

(** The [k]-th rendered thumbnail shows the [k]-th image and its click
    stores [k]. *)
Lemma thumbnail_nth (imgs : list string) (current : Z)
    (thumbs : list Thumbnail) (k : nat) (t : Thumbnail) :
  render_thumbnails imgs current = Some thumbs ->
  nth_error thumbs k = Some t ->
  thumb_target t = Z.of_nat k /\ nth_error imgs k = Some (thumb_src t) /\
  0 <= thumb_target t < Js.length imgs.
Proof.
  unfold render_thumbnails. destruct (Js.length imgs >? 1); [|discriminate].
  intros [= <-]. unfold Js.map. rewrite map_from_nth.
  destruct (nth_error imgs k) as [img|] eqn:Himg; [|discriminate].
  cbn [option_map]. intros [= <-]. unfold render_thumbnail.
  cbn [thumb_target thumb_src].
  split; [lia|]. split; [reflexivity|].
  assert (Hk : (k < List.length imgs)%nat).
  { apply nth_error_Some. rewrite Himg. discriminate. }
  unfold Js.length. lia.
Qed.

(** C3. On a product with at least one image and an index inside the
    images, "next" gives 0 at the last index and the index plus one
    elsewhere, "previous" gives the last index at 0 and the index minus
    one elsewhere, and a click on the [k]-th thumbnail stores [k]; next
    and previous are the successor and predecessor modulo the number of
    images. *)
Theorem carousel_next_previous_thumbnail (p : Product) (s : State) :
  images p <> [] ->
  index_in_range p s ->
  let n := Js.length (images p) in
  let i := currentImageIndex s in
  (i = n - 1 -> currentImageIndex (handleNextImage p s) = 0) /\
  (i <> n - 1 -> currentImageIndex (handleNextImage p s) = i + 1) /\
  (i = 0 -> currentImageIndex (handlePreviousImage p s) = n - 1) /\
  (i <> 0 -> currentImageIndex (handlePreviousImage p s) = i - 1) /\
  currentImageIndex (handleNextImage p s) = (i + 1) mod n /\
  currentImageIndex (handlePreviousImage p s) = (i - 1) mod n /\
  (forall k, currentImageIndex (handleThumbnailClick k s) = k) /\
  (forall thumbs k t,
      render_thumbnails (images p) i = Some thumbs ->
      nth_error thumbs k = Some t ->
      currentImageIndex (handleThumbnailClick (thumb_target t) s) = Z.of_nat k).
Proof.
  intros Himgs Hrange n i. apply length_pos in Himgs.
  unfold index_in_range in Hrange. fold n i in Hrange. fold n in Himgs.
  unfold handleNextImage, handlePreviousImage, handleThumbnailClick,
    setCurrentImageIndex. cbn [currentImageIndex]. fold n i.
  repeat split.
  - intros ->. rewrite Z.eqb_refl. reflexivity.
  - intros Hne. apply Z.eqb_neq in Hne. rewrite Hne. reflexivity.
  - intros ->. reflexivity.
  - intros Hne. apply Z.eqb_neq in Hne. rewrite Hne. reflexivity.
  - destruct (Z.eqb_spec i (n - 1)) as [->|Hne].
    + replace (n - 1 + 1) with n by lia. rewrite Z.mod_same by lia. reflexivity.
    + rewrite Z.mod_small by lia. reflexivity.
  - destruct (Z.eqb_spec i 0) as [->|Hne].
    + replace (0 - 1) with (n - 1 + (-1) * n) by lia.
      rewrite Z.mod_add by lia. rewrite Z.mod_small by lia. reflexivity.
    + rewrite Z.mod_small by lia. reflexivity.
  - intros thumbs k t Hthumbs Ht.
    destruct (thumbnail_nth _ _ _ _ _ Hthumbs Ht) as [Htarget _]. exact Htarget.
Qed.

Lemma carousel_next_previous_thumbnail_witness :
  currentImageIndex (handleNextImage phone (ready phone)) = 1 /\
  currentImageIndex (handlePreviousImage phone (ready phone)) = 2.
Proof.
  destruct (carousel_next_previous_thumbnail phone (ready phone))
    as (_ & Hnext & Hprev & _).
  - discriminate.
  - unfold index_in_range. cbn. lia.
  - split; [apply Hnext; discriminate | apply Hprev; reflexivity].
Defined.

Lemma carousel_step_in_range (p : Product) (op : CarouselOp) (s : State) :
  images p <> [] ->
  op_in_range p op ->
  index_in_range p s ->
  index_in_range p (carousel_step p op s).
Proof.
  intros Himgs Hop Hs. apply length_pos in Himgs.
  unfold index_in_range in *.
  destruct op as [| |k]; cbn [carousel_step op_in_range] in *;
    unfold handleNextImage, handlePreviousImage, handleThumbnailClick,
      setCurrentImageIndex; cbn [currentImageIndex].
  - destruct (Z.eqb_spec (currentImageIndex s) (Js.length (images p) - 1)); lia.
  - destruct (Z.eqb_spec (currentImageIndex s) 0); lia.
  - exact Hop.
Qed.

Lemma carousel_run_in_range (p : Product) (ops : list CarouselOp) :
  images p <> [] ->
  Forall (op_in_range p) ops ->
  forall s, index_in_range p s -> index_in_range p (carousel_run p ops s).
Proof.
  intros Himgs Hops. unfold carousel_run.
  induction Hops as [|op ops Hop _ IH]; intros s Hs; cbn [fold_left].
  - exact Hs.
  - apply IH. apply carousel_step_in_range; assumption.
Qed.

(** The clicks of the mounted component are these operations: on a
    page that is on screen a click on an arrow runs its handler, and a
    click on a thumbnail either finds none (the strip is not rendered,
    or is shorter) or selects an index inside the images. *)
Lemma click_is_carousel_step (api : string -> FetchOutcome) (a : App)
    (p : Product) (page : Page) :
  product (view a) = Some p ->
  render (view a) = Ok (ProductView page) ->
  view (step api a ClickNext) = carousel_step p Next (view a) /\
  view (step api a ClickPrevious) = carousel_step p Previous (view a) /\
  forall k,
    view (step api a (ClickThumbnail k)) = view a \/
    exists op, op_in_range p op /\
               view (step api a (ClickThumbnail k)) = carousel_step p op (view a).
Proof.
  intros Hp Hrender. cbn [step]. unfold click. rewrite Hrender, Hp.
  cbn [view]. split; [reflexivity|]. split; [reflexivity|]. intros k.
  destruct (render_page_fields _ _ _ (render_product_view _ _ _ Hp Hrender))
    as (_ & _ & Hthumbs & _).
  destruct (page_thumbnails page) as [thumbs|]; [|left; reflexivity].
  destruct (nth_error thumbs k) as [t|] eqn:Ht; [|left; reflexivity].
  right. exists (SelectThumbnail (thumb_target t)). split; [|reflexivity].
  cbn [op_in_range]. symmetry in Hthumbs.
  apply (thumbnail_nth _ _ _ _ _ Hthumbs Ht).
Qed.

(** C4. The index cell is created with 0, is still 0 when the product
    has been loaded, and on a product with at least one image it stays
    inside the images through any sequence of next, previous and
    thumbnail clicks whose thumbnails exist. *)
Theorem carousel_index_stays_in_range (p : Product) (ops : list CarouselOp) :
  images p <> [] ->
  Forall (op_in_range p) ops ->
  let loaded :=
    snd (loadProductDetails (Fulfilled {| status := 200; json := Ok p |})
           initial_state) in
  currentImageIndex initial_state = 0 /\
  product loaded = Some p /\
  currentImageIndex loaded = 0 /\
  index_in_range p (carousel_run p ops loaded).
Proof.
  intros Himgs Hops loaded. repeat split; try reflexivity;
    apply carousel_run_in_range; try assumption;
    unfold index_in_range; cbn; apply length_pos in Himgs; lia.
Qed.

Lemma carousel_index_stays_in_range_witness :
  index_in_range phone
    (carousel_run phone [Previous; Next; Next; SelectThumbnail 2; Next]
       (snd (loadProductDetails
               (Fulfilled {| status := 200; json := Ok phone |})
               initial_state))).
Proof.
  apply (carousel_index_stays_in_range phone
           [Previous; Next; Next; SelectThumbnail 2; Next]).
  - discriminate.
  - repeat constructor; cbn; lia.
Defined.

(** ** The stock badge *)

(** C7. On every rendered product the badge is the function
    [stock_badge] of the [stock] field alone: it has the in-stock text
    and colour exactly when [stock > 0] and the out-of-stock text and
    colour exactly when [stock <= 0]. *)
Theorem stock_badge_follows_stock (s : State) (p : Product) (page : Page) :
  product s = Some p ->
  render s = Ok (ProductView page) ->
  page_badge page = stock_badge (stock p) /\
  (badge_text (page_badge page) = "In Stock" <-> stock p > 0) /\
  (badge_text (page_badge page) = "Out of Stock" <-> stock p <= 0) /\
  (badge_class (page_badge page) = "bg-indigo-600" <-> stock p > 0) /\
  (badge_class (page_badge page) = "bg-red-500" <-> stock p <= 0).
Proof.
  intros Hp Hrender.
  destruct (render_page_fields _ _ _ (render_product_view _ _ _ Hp Hrender))
    as (-> & _).
  split; [reflexivity|]. unfold stock_badge. cbn [badge_text badge_class].
  destruct (Z.gtb_spec (stock p) 0) as [Hpos|Hle];
    repeat split; intros H; try reflexivity; try discriminate H; lia.
Qed.

Lemma stock_badge_follows_stock_witness :
  exists page,
    render (ready lamp) = Ok (ProductView page) /\
    badge_text (page_badge page) = "Out of Stock".
Proof.
  eexists. split; [reflexivity|].
  apply (stock_badge_follows_stock (ready lamp) lamp);
    [reflexivity | reflexivity | cbn; lia].
Defined.

(** ** The reviews toggle *)

Lemma toggle_clicks_parity (n : nat) (s : State) :
  reviewsVisible (toggle_clicks n s) = xorb (Nat.odd n) (reviewsVisible s).
Proof.
  induction n as [|n IH].
  - cbn. destruct (reviewsVisible s); reflexivity.
  - cbn [toggle_clicks]. unfold handleToggleReviews, setReviewsVisible.
    cbn [reviewsVisible]. rewrite IH, Nat.odd_succ, <- Nat.negb_odd.
    destruct (Nat.odd n), (reviewsVisible s); reflexivity.
Qed.

(** C8. The panel starts hidden, a click stores the negation of the
    visibility that was rendered, after [n] clicks from the initial
    state the panel is visible exactly when [n] is odd, and two clicks
    give back the visibility they started from. *)
Theorem reviews_toggle_parity :
  reviewsVisible initial_state = false /\
  (forall s, reviewsVisible (handleToggleReviews s s) = negb (reviewsVisible s)) /\
  (forall n, reviewsVisible (toggle_clicks n initial_state) = Nat.odd n) /\
  (forall s, reviewsVisible (toggle_clicks 2 s) = reviewsVisible s).
Proof.
  split; [reflexivity|]. split; [reflexivity|]. split.
  - intros n. rewrite toggle_clicks_parity. cbn. apply xorb_false_r.
  - intros s. rewrite toggle_clicks_parity. reflexivity.
Qed.

(** On a page that is on screen the click event runs that handler. *)
Lemma click_toggle_on_page (api : string -> FetchOutcome) (a : App)
    (page : Page) (p : Product) :
  render (view a) = Ok (ProductView page) ->
  product (view a) = Some p ->
  reviewsVisible (view (step api a ClickToggleReviews)) =
  negb (reviewsVisible (view a)).
Proof.
  intros Hrender Hp. cbn [step]. unfold click. rewrite Hrender, Hp. reflexivity.
Qed.

(** ** The reviews panel *)

Lemma render_review_cards (l : list Review.t) :
  forall (from : Z) (cards : list ReviewCard),
    mapM render_review (map_from pair from l) = Ok cards ->
    Forall2 card_of l cards.
Proof.
  induction l as [|r l IH]; intros from cards; cbn [map_from mapM].
  - intros [= <-]. constructor.
  - unfold render_review at 1. cbn [fst snd].
    destruct (stars (Review.rating r)) as [glyphs|] eqn:Hstars; [|discriminate].
    cbn [Js.bind].
    destruct (mapM render_review (map_from pair (from + 1) l)) as [rest|] eqn:Hrest;
      [|discriminate].
    cbn [Js.bind]. intros [= <-]. constructor.
    + unfold card_of. cbn. repeat split. exact Hstars.
    + eapply IH. exact Hrest.
Qed.

(** C9. Whenever the reviews panel is on screen, it holds one card per
    review, in the order of [product.reviews], each card showing its
    review, if there is at least one review; it holds the message
    "No reviews yet." if the list is empty or absent. *)
Theorem reviews_panel_lists_reviews_in_order (s : State) (p : Product)
    (page : Page) :
  product s = Some p ->
  render s = Ok (ProductView page) ->
  reviewsVisible s = true ->
  match reviews p with
  | Some (r :: rest) =>
      exists cards,
        page_reviews page = Some (ReviewList cards) /\
        Forall2 card_of (r :: rest) cards
  | Some [] | None => page_reviews page = Some (EmptyState "No reviews yet.")
  end.
Proof.
  intros Hp Hrender Hvisible.
  destruct (render_page_fields _ _ _ (render_product_view _ _ _ Hp Hrender))
    as (_ & _ & _ & _ & Hpanel).
  rewrite Hvisible in Hpanel. destruct Hpanel as (panel & Hreviews & ->).
  unfold render_reviews in Hreviews.
  destruct (reviews p) as [[|r rest]|].
  - cbn in Hreviews. congruence.
  - replace (has_reviews (Some (r :: rest))) with true in Hreviews.
    + unfold Js.map in Hreviews.
      destruct (mapM render_review (map_from pair 0 (r :: rest))) as [cards|] eqn:Hcards;
        [|discriminate].
      cbn [Js.bind] in Hreviews. injection Hreviews as <-.
      exists cards. split; [reflexivity|].
      eapply render_review_cards. exact Hcards.
    + symmetry. unfold has_reviews, Js.length. cbn [List.length].
      apply Z.gtb_lt. lia.
  - cbn in Hreviews. congruence.
Qed.

Lemma reviews_panel_lists_reviews_in_order_witness :
  exists page,
    render (setReviewsVisible true (ready phone)) = Ok (ProductView page) /\
    exists cards,
      page_reviews page = Some (ReviewList cards) /\
      match reviews phone with
      | Some l => Forall2 card_of l cards
      | None => False
      end.
Proof.
  eexists. split; [reflexivity|].
  exact (reviews_panel_lists_reviews_in_order
           (setReviewsVisible true (ready phone)) phone _
           eq_refl eq_refl eq_refl).
Defined.




(** ** Requests in flight *)

(** A request that settles while it is the only one in flight shows the
    product that the server holds for the identifier. *)
Lemma single_request_shows_served (api : string -> FetchOutcome)
    (i : string) (p : Product) :
  served api i = Some p ->
  let a := run api (mount i) [Settle 0] in
  id a = i /\ pending a = [] /\ product (view a) = Some p /\
  error (view a) = None /\ loading (view a) = false.
Proof.
  unfold served. intros Hserved. cbn.
  rewrite loadProductDetails_resume_eq.
  destruct (fetchProductDetails (api i)) as [p'|]; [|discriminate].
  injection Hserved as ->. repeat split.
Qed.

(** C6. The claim fails on the code. The identifier changes from "1" to
    "2" while the request for "1" is in flight; the request for "2"
    settles first and the request for "1" after it. Nothing is in flight
    any more, the identifier is "2", the server holds the lamp for "2",
    and the view shows the phone of the superseded request. Had the
    requests settled in the order they were issued, the lamp would be
    shown. *)
Theorem stale_response_overwrites_latest :
  let a := run sample_api (mount "1") [IdChange "2"; Settle 1; Settle 0] in
  let b := run sample_api (mount "1") [IdChange "2"; Settle 0; Settle 0] in
  id a = "2" /\ pending a = [] /\
  served sample_api "2" = Some lamp /\
  product (view a) = Some phone /\
  (exists page, render (view a) = Ok (ProductView page) /\
                page_title page = "Phone") /\
  id b = "2" /\ pending b = [] /\ product (view b) = Some lamp.
Proof.
  cbv zeta. repeat split.
  eexists. split; reflexivity.
Qed.

(** ** What an identifier change leaves alone *)

Lemma loading_keeps_index_and_reviews (o : FetchOutcome) (s : State) :
  currentImageIndex (snd (loadProductDetails_start s)) = currentImageIndex s /\
  reviewsVisible (snd (loadProductDetails_start s)) = reviewsVisible s /\
  currentImageIndex (snd (loadProductDetails_resume o s)) = currentImageIndex s /\
  reviewsVisible (snd (loadProductDetails_resume o s)) = reviewsVisible s.
Proof.
  rewrite loadProductDetails_resume_eq.
  destruct (fetchProductDetails o); repeat split.
Qed.

(** C10. The effect that an identifier change fires writes the loading
    and error cells only, and the request that settles afterwards writes
    the product, error and loading cells only: the carousel index and
    the visibility of the reviews are those of before. So after two
    "next" clicks and one click on the reviews button on the phone, the
    change to the lamp, which has one image, is rendered with the index
    2, outside its images, and with the reviews panel open. *)
Theorem id_change_keeps_index_and_reviews :
  (forall s,
      snd (loadProductDetails_start s) = setError None (setLoading true s)) /\
  (forall api a new_id,
      let a' := step api a (IdChange new_id) in
      currentImageIndex (view a') = currentImageIndex (view a) /\
      reviewsVisible (view a') = reviewsVisible (view a) /\
      product (view a') = product (view a)) /\
  (forall api a k,
      let a' := step api a (Settle k) in
      currentImageIndex (view a') = currentImageIndex (view a) /\
      reviewsVisible (view a') = reviewsVisible (view a)) /\
  (let a := run sample_api (mount "1")
              [Settle 0; ClickNext; ClickNext; ClickToggleReviews;
               IdChange "2"; Settle 0] in
   product (view a) = Some lamp /\
   currentImageIndex (view a) = 2 /\
   Js.length (images lamp) = 1 /\
   reviewsVisible (view a) = true /\
   exists page, render (view a) = Ok (ProductView page) /\
                page_image page = None /\
                page_reviews page = Some (EmptyState "No reviews yet.")).
Proof.
  split; [reflexivity|]. split; [|split].
  - intros api a new_id. cbn [step].
    destruct (String.eqb new_id (id a)); cbn; repeat split.
  - intros api a k. cbn [step].
    destruct (nth_error (pending a) k) as [requested|]; cbn [view];
      [|split; reflexivity].
    destruct (loading_keeps_index_and_reviews (api requested) (view a))
      as (_ & _ & Hindex & Hvisible).
    split; assumption.
  - cbv zeta. repeat split. eexists. repeat split.
Qed.

(** * Further properties of the component *)

(** ** Star rows: when they can be drawn *)



(** The [|| 0] changes nothing for a number: zero rounds to zero. *)
Lemma star_glyphs_number (q : Q) :
  star_glyphs (Number q) = Array_fill (Some (Qfloor (q + (1 # 2)))) star.
Proof.
  unfold star_glyphs, Js.or, truthy.
  destruct (Qeq_bool q 0) eqn:Hzero; cbn [negb]; [|reflexivity].
  apply Qeq_bool_iff in Hzero.
  rewrite (Qfloor_comp (q + (1 # 2)) (0 + (1 # 2))); [reflexivity|].
  rewrite Hzero. reflexivity.
Qed.


(** X2. A higher rating never shows fewer stars. *)
Theorem star_glyphs_monotone (q1 q2 : Q) (l1 l2 : list string) :
  star_glyphs (Number q1) = Ok l1 ->
  star_glyphs (Number q2) = Ok l2 ->
  (q1 <= q2)%Q ->
  (List.length l1 <= List.length l2)%nat.
Proof.
  intros H1 H2 Hle. rewrite star_glyphs_number in H1, H2.
  unfold Array_fill in H1, H2.
  destruct ((0 <=? Qfloor (q1 + (1 # 2))) && (Qfloor (q1 + (1 # 2)) <? 2 ^ 32));
    [|discriminate].
  destruct ((0 <=? Qfloor (q2 + (1 # 2))) && (Qfloor (q2 + (1 # 2)) <? 2 ^ 32));
    [|discriminate].
  assert (E1 : l1 = repeat star (Z.to_nat (Qfloor (q1 + (1 # 2)))))
    by congruence.
  assert (E2 : l2 = repeat star (Z.to_nat (Qfloor (q2 + (1 # 2)))))
    by congruence.
  rewrite E1, E2, !repeat_length.
  assert (H : Qfloor (q1 + (1 # 2)) <= Qfloor (q2 + (1 # 2))).
  { apply Qfloor_resp_le. apply Qplus_le_l. exact Hle. }
  lia.
Qed.

Lemma star_glyphs_monotone_witness :
  (List.length (repeat star 4) <= List.length (repeat star 5))%nat.
Proof.
  apply (star_glyphs_monotone (44 # 10) (46 # 10));
    [reflexivity | reflexivity | discriminate].
Defined.


Lemma render_page_rating (p : Product) (s : State) (page : Page) :
  render_page p s = Ok page -> child (rating p) = Ok (page_rating page).
Proof.
  unfold render_page.
  destruct (stars (get_opt (rating p) "rate")); [|discriminate].
  cbn [Js.bind].
  destruct (if reviewsVisible s
            then r <- render_reviews (reviews p);; Ok (Some r)
            else Ok None); [|discriminate].
  cbn [Js.bind]. destruct (child (rating p)); [|discriminate].
  cbn [Js.bind]. intros [= <-]. reflexivity.
Qed.

(** X3. Whenever the product page is rendered, the aggregate rating it
    prints (line 182) is not an object, and the star row above it
    (line 180) is empty: [product.rating?.rate] is [undefined] for every
    rating that line 182 can print. *)
Theorem rendered_page_has_no_aggregate_stars (s : State) (page : Page) :
  render s = Ok (ProductView page) ->
  exists p,
    product s = Some p /\
    page_rating page = rating p /\
    get_opt (rating p) "rate" = Undefined /\
    page_rating_stars page = "".
Proof.
  intros Hrender. unfold render in Hrender.
  destruct (loading s); [discriminate|].
  destruct (error_truthy (error s)); [discriminate|].
  destruct (product s) as [p|]; [|discriminate].
  destruct (render_page p s) as [page'|] eqn:Hpage; [|discriminate].
  cbn [Js.bind] in Hrender. injection Hrender as ->.
  exists p. split; [reflexivity|].
  pose proof (render_page_rating _ _ _ Hpage) as Hchild.
  destruct (render_page_fields _ _ _ Hpage) as (_ & _ & _ & Hstars & _).
  destruct (rating p) as [| | |q|props]; cbn in Hchild; try discriminate;
    injection Hchild as <-; cbn in Hstars; injection Hstars as <-;
    repeat split.
Qed.

Lemma rendered_page_has_no_aggregate_stars_witness :
  exists page p,
    render (ready phone) = Ok (ProductView page) /\
    product (ready phone) = Some p /\
    page_rating_stars page = "".
Proof.
  eexists. 
  destruct (rendered_page_has_no_aggregate_stars (ready phone) _ eq_refl)
    as (p & Hp & _ & _ & Hstars).
  exists p. split; [reflexivity|]. split; assumption.
Defined.

(** ** A rating that cannot be drawn *)




(** ** What every reachable state satisfies *)











(** ** Loads that do not overlap *)

Lemma load_phase_click (api : string -> FetchOutcome)
    (h : Product -> Page -> State -> State) (a : App) :
  (forall p page s, h p page s = s \/
                    (exists f, h p page s = setCurrentImageIndex f s) \/
                    (exists b, h p page s = setReviewsVisible b s)) ->
  load_phase api a -> load_phase api (click h a).
Proof.
  intros Hh Hphase. unfold click.
  destruct (render (view a)) as [[| |page]|] eqn:Hrender; try exact Hphase.
  destruct (product (view a)) as [p|] eqn:Hp; [|exact Hphase].
  destruct Hphase as [(Hpending & Hloading & Herror & Hview)|(Hpending & Hloading & Hserved)].
  - rewrite Hview in Hrender. discriminate.
  - right. cbn [pending id view]. split; [exact Hpending|].
    assert (Hcells : loading (h p page (view a)) = loading (view a) /\
                     error (h p page (view a)) = error (view a) /\
                     product (h p page (view a)) = product (view a)).
    { destruct (Hh p page (view a)) as [->|[[f ->]|[b ->]]]; repeat split. }
    destruct Hcells as (Hl & He & Hpr). split; [congruence|].
    destruct (served api (id a)) as [p'|].
    + rewrite He, Hpr. exact Hserved.
    + congruence.
Qed.

Lemma load_phase_step (api : string -> FetchOutcome) (a : App) (ev : Event) :
  sequential api a [ev] = true ->
  load_phase api a -> load_phase api (step api a ev).
Proof.
  intros Hseq Hphase. destruct ev as [new_id|k| | |k|]; cbn [step].
  - cbn [sequential] in Hseq. rewrite andb_true_r in Hseq.
    destruct (String.eqb new_id (id a)); [exact Hphase|].
    cbn [orb] in Hseq. destruct (pending a) as [|x rest] eqn:Hpending;
      [|discriminate].
    left. cbn [pending id view]. rewrite loadProductDetails_start_eq.
    repeat split.
  - destruct Hphase as [(Hpending & Hloading & Herror & Hview)|(Hpending & Hloading & Hserved)].
    + rewrite Hpending. destruct k as [|k]; cbn [nth_error].
      * right. cbn [pending id view remove_nth]. split; [reflexivity|].
        rewrite loadProductDetails_resume_eq. unfold served.
        destruct (fetchProductDetails (api (id a))) as [p|e]; cbn [snd].
        -- repeat split. cbn. exact Herror.
        -- split; reflexivity.
      * destruct k; cbn [nth_error]; left; rewrite Hpending; repeat split;
          assumption.
    + rewrite Hpending. destruct k; cbn [nth_error]; right;
        rewrite Hpending; repeat split; assumption.
  - apply load_phase_click; [|exact Hphase]. intros. right. left. eexists. reflexivity.
  - apply load_phase_click; [|exact Hphase]. intros. right. left. eexists. reflexivity.
  - apply load_phase_click; [|exact Hphase]. intros p page s.
    destruct (page_thumbnails page) as [thumbs|]; [|left; reflexivity].
    destruct (nth_error thumbs k); [|left; reflexivity].
    right. left. eexists. reflexivity.
  - apply load_phase_click; [|exact Hphase]. intros. right. right. eexists. reflexivity.
Qed.

(** X7. When the identifier only changes while no request is in
    flight, the component follows the loading state machine for the
    identifier of its last render, whatever the clicks in between:
    either that one request is in flight and the loading indicator is
    shown, or nothing is in flight and the state is settled — with the
    product the server holds for that identifier and no error, or, if
    the server has none, with the error page. *)
Theorem sequential_loads_follow_state_machine (api : string -> FetchOutcome)
    (i : string) (evs : list Event) :
  sequential api (mount i) evs = true ->
  load_phase api (run api (mount i) evs).
Proof.
  assert (Hmount : load_phase api (mount i)) by (left; repeat split).
  revert Hmount. generalize (mount i). unfold run.
  induction evs as [|ev evs IH]; intros a Hphase Hseq; cbn [fold_left].
  - exact Hphase.
  - cbn [sequential] in Hseq. apply andb_true_iff in Hseq.
    destruct Hseq as [Hev Hrest]. apply IH; [|exact Hrest].
    apply load_phase_step; [|exact Hphase].
    cbn [sequential]. rewrite Hev. reflexivity.
Qed.

Lemma sequential_loads_follow_state_machine_witness :
  load_phase sample_api
    (run sample_api (mount "1")
       [Settle 0; ClickNext; ClickToggleReviews; IdChange "2"; Settle 0;
        IdChange "3"; Settle 0]).
Proof.
  apply (sequential_loads_follow_state_machine sample_api "1"). reflexivity.
Defined.

(** ** Failures *)

(** X8. A failure outlives a later success: once a request has failed,
    a request that settles afterwards with a product stores the product
    but the error stays, so the view remains the error page. Only the
    next change of identifier clears it. *)
Theorem failure_hides_later_success (s : State) (o1 o2 : FetchOutcome)
    (e : Exn) (p : Product) :
  fetchProductDetails o1 = Throw e ->
  fetchProductDetails o2 = Ok p ->
  let s' := snd (loadProductDetails_resume o2
                   (snd (loadProductDetails_resume o1 s))) in
  product s' = Some p /\
  loading s' = false /\
  render s' = Ok (ErrorPageView load_failed_message) /\
  error (snd (loadProductDetails_start s')) = None.
Proof.
  intros H1 H2 s'. subst s'.
  rewrite !loadProductDetails_resume_eq, H1, H2. repeat split.
Qed.

Lemma failure_hides_later_success_witness :
  render (view (run sample_api (mount "3") [IdChange "1"; Settle 0; Settle 0]))
  = Ok (ErrorPageView load_failed_message).
Proof.
  apply (failure_hides_later_success
           (snd (loadProductDetails_start
                   (snd (loadProductDetails_start initial_state))))
           (sample_api "3") (sample_api "1")
           (Error "Failed to fetch product details") phone);
    reflexivity.
Defined.

(** X9. The user cannot tell one failure from another: a network
    error, a status outside 200-299 and a body that does not parse all
    leave the component in the same state, with the same message. *)
Theorem load_failures_indistinguishable (o1 o2 : FetchOutcome)
    (e1 e2 : Exn) (s : State) :
  fetchProductDetails o1 = Throw e1 ->
  fetchProductDetails o2 = Throw e2 ->
  loadProductDetails o1 s = loadProductDetails o2 s.
Proof.
  intros H1 H2. unfold loadProductDetails, Action.bind.
  rewrite loadProductDetails_start_eq, !loadProductDetails_resume_eq, H1, H2.
  reflexivity.
Qed.

Lemma load_failures_indistinguishable_witness :
  loadProductDetails Rejected (ready phone) =
  loadProductDetails (Fulfilled {| status := 200; json := Throw SyntaxError |})
    (ready phone).
Proof.
  apply (load_failures_indistinguishable _ _ NetworkFailure SyntaxError);
    reflexivity.
Defined.

(** ** The carousel as arithmetic modulo the number of images *)

Lemma next_index_mod (p : Product) (s : State) :
  images p <> [] ->
  index_in_range p s ->
  currentImageIndex (handleNextImage p s) =
  (currentImageIndex s + 1) mod Js.length (images p).
Proof.
  intros Himgs Hrange. apply length_pos in Himgs. unfold index_in_range in Hrange.
  unfold handleNextImage, setCurrentImageIndex. cbn [currentImageIndex].
  destruct (Z.eqb_spec (currentImageIndex s) (Js.length (images p) - 1)) as [->|Hne].
  - replace (Js.length (images p) - 1 + 1) with (Js.length (images p)) by lia.
    rewrite Z.mod_same by lia. reflexivity.
  - rewrite Z.mod_small by lia. reflexivity.
Qed.

Lemma previous_index_mod (p : Product) (s : State) :
  images p <> [] ->
  index_in_range p s ->
  currentImageIndex (handlePreviousImage p s) =
  (currentImageIndex s - 1) mod Js.length (images p).
Proof.
  intros Himgs Hrange. apply length_pos in Himgs. unfold index_in_range in Hrange.
  unfold handlePreviousImage, setCurrentImageIndex. cbn [currentImageIndex].
  destruct (Z.eqb_spec (currentImageIndex s) 0) as [->|Hne].
  - replace (0 - 1) with (Js.length (images p) - 1 + (-1) * Js.length (images p))
      by lia.
    rewrite Z.mod_add by lia. rewrite Z.mod_small by lia. reflexivity.
  - rewrite Z.mod_small by lia. reflexivity.
Qed.

(** X10. On a product with at least one image and an index inside the
    images, [k] clicks on "next" move the index to [(i + k) mod n] and
    [k] clicks on "previous" to [(i - k) mod n], [n] being the number of
    images; so [n] clicks on either arrow come back to the image they
    started from. *)
Theorem repeated_arrows_are_modular (p : Product) (k : nat) (s : State) :
  images p <> [] ->
  index_in_range p s ->
  let n := Js.length (images p) in
  let i := currentImageIndex s in
  currentImageIndex (carousel_run p (repeat Next k) s) = (i + Z.of_nat k) mod n /\
  currentImageIndex (carousel_run p (repeat Previous k) s) = (i - Z.of_nat k) mod n /\
  currentImageIndex (carousel_run p (repeat Next (List.length (images p))) s) = i /\
  currentImageIndex (carousel_run p (repeat Previous (List.length (images p))) s) = i.
Proof.
  intros Himgs Hrange n i.
  assert (Hn : 0 < n) by (apply length_pos; exact Himgs).
  assert (Hnext : forall k s, index_in_range p s ->
            currentImageIndex (carousel_run p (repeat Next k) s) =
            (currentImageIndex s + Z.of_nat k) mod n).
  { clear k s Hrange i. induction k as [|k IH]; intros s Hs.
    - cbn. rewrite Z.add_0_r. unfold index_in_range in Hs. fold n in Hs.
      rewrite Z.mod_small by lia. reflexivity.
    - cbn [repeat]. unfold carousel_run. cbn [fold_left carousel_step].
      fold (carousel_run p (repeat Next k) (handleNextImage p s)).
      rewrite IH by (apply (carousel_step_in_range p Next); [assumption|exact I|assumption]).
      rewrite next_index_mod by assumption. fold n.
      rewrite Zplus_mod_idemp_l. f_equal. lia. }
  assert (Hprev : forall k s, index_in_range p s ->
            currentImageIndex (carousel_run p (repeat Previous k) s) =
            (currentImageIndex s - Z.of_nat k) mod n).
  { clear k s Hrange i Hnext. induction k as [|k IH]; intros s Hs.
    - cbn. rewrite Z.sub_0_r. unfold index_in_range in Hs. fold n in Hs.
      rewrite Z.mod_small by lia. reflexivity.
    - cbn [repeat]. unfold carousel_run. cbn [fold_left carousel_step].
      fold (carousel_run p (repeat Previous k) (handlePreviousImage p s)).
      rewrite IH by (apply (carousel_step_in_range p Previous); [assumption|exact I|assumption]).
      rewrite previous_index_mod by assumption. fold n.
      rewrite Zminus_mod_idemp_l. f_equal. lia. }
  unfold index_in_range in Hrange. fold n i in Hrange.
  split; [apply Hnext; exact Hrange|]. split; [apply Hprev; exact Hrange|].
  split.
  - rewrite Hnext by exact Hrange. fold i. fold (Js.length (images p)). fold n.
    replace (i + n) with (i + 1 * n) by lia.
    rewrite Z.mod_add by lia. apply Z.mod_small. lia.
  - rewrite Hprev by exact Hrange. fold i. fold (Js.length (images p)). fold n.
    replace (i - n) with (i + (-1) * n) by lia.
    rewrite Z.mod_add by lia. apply Z.mod_small. lia.
Qed.

Lemma repeated_arrows_are_modular_witness :
  currentImageIndex (carousel_run phone (repeat Next 7) (ready phone)) =
  (0 + 7) mod 3.
Proof.
  apply (repeated_arrows_are_modular phone 7 (ready phone)).
  - discriminate.
  - unfold index_in_range. cbn. lia.
Defined.

(** X11. On a product with at least one image and an index inside the
    images, "previous" undoes "next" and "next" undoes "previous": the
    state is the one before the two clicks. *)
Theorem next_previous_round_trip (p : Product) (s : State) :
  images p <> [] ->
  index_in_range p s ->
  handlePreviousImage p (handleNextImage p s) = s /\
  handleNextImage p (handlePreviousImage p s) = s.
Proof.
  intros Himgs Hrange. apply length_pos in Himgs.
  unfold index_in_range in Hrange. destruct s as [pr lo er i rv].
  cbn [currentImageIndex] in Hrange.
  unfold handlePreviousImage, handleNextImage, setCurrentImageIndex.
  cbn [product loading error currentImageIndex reviewsVisible].
  split; f_equal.
  - destruct (Z.eqb_spec i (Js.length (images p) - 1)) as [->|Hne].
    + rewrite Z.eqb_refl. reflexivity.
    + destruct (Z.eqb_spec (i + 1) 0); lia.
  - destruct (Z.eqb_spec i 0) as [->|Hne].
    + rewrite Z.eqb_refl. reflexivity.
    + destruct (Z.eqb_spec (i - 1) (Js.length (images p) - 1)); lia.
Qed.

Lemma next_previous_round_trip_witness :
  handlePreviousImage lamp (handleNextImage lamp (ready lamp)) = ready lamp.
Proof.
  apply (next_previous_round_trip lamp (ready lamp)).
  - discriminate.
  - unfold index_in_range. cbn. lia.
Defined.

(** [arr[i]] is [undefined] exactly outside the array. *)
Lemma index_none {A} (arr : list A) (i : Z) :
  Js.index arr i = None <-> ~ (0 <= i < Js.length arr).
Proof.
  unfold Js.index, Js.length. destruct (Z.ltb_spec i 0) as [Hneg|Hpos].
  - split; [lia | reflexivity].
  - rewrite nth_error_None. lia.
Qed.

(** X12. An index at or past the end of the images is never brought
    back by "next": [k] clicks move it to [i + k], and the main image
    stays without a source. This is the case of a product without
    images (from the initial index 0) and of an index carried over to a
    product with fewer images. *)
Theorem next_past_the_end_runs_away (p : Product) (k : nat) (s : State) :
  Js.length (images p) <= currentImageIndex s ->
  let s' := carousel_run p (repeat Next k) s in
  currentImageIndex s' = currentImageIndex s + Z.of_nat k /\
  Js.index (images p) (currentImageIndex s') = None.
Proof.
  intros Hpast s'. subst s'.
  assert (Hindex : currentImageIndex (carousel_run p (repeat Next k) s) =
                   currentImageIndex s + Z.of_nat k).
  { revert s Hpast. induction k as [|k IH]; intros s Hpast.
    - cbn. lia.
    - cbn [repeat]. unfold carousel_run. cbn [fold_left carousel_step].
      fold (carousel_run p (repeat Next k) (handleNextImage p s)).
      assert (Hnext : currentImageIndex (handleNextImage p s) =
                      currentImageIndex s + 1).
      { unfold handleNextImage, setCurrentImageIndex. cbn [currentImageIndex].
        destruct (Z.eqb_spec (currentImageIndex s) (Js.length (images p) - 1));
          [lia | reflexivity]. }
      rewrite IH by lia. rewrite Hnext. lia. }
  split; [exact Hindex|]. apply index_none. rewrite Hindex. lia.
Qed.

Lemma next_past_the_end_runs_away_witness :
  currentImageIndex
    (carousel_run lamp (repeat Next 4) (handleThumbnailClick 2 (ready lamp))) =
  2 + 4.
Proof.
  apply (next_past_the_end_runs_away lamp 4 (handleThumbnailClick 2 (ready lamp))).
  cbn. lia.
Defined.

(** ** What is on the page *)

Lemma map_from_sources (current : Z) (imgs : list string) :
  forall from,
    List.map thumb_src (map_from (render_thumbnail current) from imgs) = imgs.
Proof.
  induction imgs as [|x imgs IH]; intros from; cbn [map_from List.map].
  - reflexivity.
  - rewrite IH. reflexivity.
Qed.

Lemma thumbnail_selected_nth (imgs : list string) (current : Z)
    (thumbs : list Thumbnail) (k : nat) (t : Thumbnail) :
  render_thumbnails imgs current = Some thumbs ->
  nth_error thumbs k = Some t ->
  (thumb_selected t = true <-> Z.of_nat k = current).
Proof.
  unfold render_thumbnails. destruct (Js.length imgs >? 1); [|discriminate].
  intros [= <-]. unfold Js.map. rewrite map_from_nth.
  destruct (nth_error imgs k); [|discriminate].
  cbn [option_map]. intros [= <-]. unfold render_thumbnail.
  cbn [thumb_selected]. rewrite Z.eqb_eq. lia.
Qed.

(** X13. The thumbnail strip is rendered exactly when there are two
    images or more. It then shows every image once, in the order of
    [product.images]; the thumbnail at position [k] is the highlighted
    one exactly when [k] is the current index, and it carries [k] as its
    key and [k + 1] in its alternative text. *)
Theorem thumbnail_strip_mirrors_images (imgs : list string) (current : Z) :
  (render_thumbnails imgs current = None <-> Js.length imgs <= 1) /\
  forall thumbs,
    render_thumbnails imgs current = Some thumbs ->
    List.map thumb_src thumbs = imgs /\
    forall k t,
      nth_error thumbs k = Some t ->
      (thumb_selected t = true <-> Z.of_nat k = current) /\
      thumb_key t = Z.of_nat k /\
      thumb_alt t = Z.of_nat k + 1.
Proof.
  unfold render_thumbnails. destruct (Z.gtb_spec (Js.length imgs) 1) as [Hgt|Hle].
  - split; [split; [discriminate | lia]|].
    intros thumbs [= <-]. unfold Js.map.
    split; [apply map_from_sources|].
    intros k t. rewrite map_from_nth.
    destruct (nth_error imgs k); [|discriminate].
    cbn [option_map]. intros [= <-]. unfold render_thumbnail.
    cbn [thumb_selected thumb_key thumb_alt]. rewrite Z.eqb_eq.
    repeat split; lia.
  - split; [split; [intros _; exact Hle | reflexivity]|]. discriminate.
Qed.

Lemma thumbnail_strip_mirrors_images_witness :
  exists thumbs,
    render_thumbnails (images phone) 1 = Some thumbs /\
    List.map thumb_src thumbs = images phone.
Proof.
  eexists. split; [reflexivity|].
  destruct (thumbnail_strip_mirrors_images (images phone) 1) as [_ Hstrip].
  apply (Hstrip _ eq_refl).
Defined.

Lemma render_page_button (p : Product) (s : State) (page : Page) :
  render_page p s = Ok page ->
  page_reviews_button page =
  (if reviewsVisible s then "Hide Reviews" else "Show Reviews").
Proof.
  unfold render_page.
  destruct (stars (get_opt (rating p) "rate")); [|discriminate].
  cbn [Js.bind].
  destruct (if reviewsVisible s
            then r <- render_reviews (reviews p);; Ok (Some r)
            else Ok None); [|discriminate].
  cbn [Js.bind]. destruct (child (rating p)); [|discriminate].
  cbn [Js.bind]. intros [= <-]. reflexivity.
Qed.

(** X14. On every rendered product page the main image has a source
    exactly when the index is inside the images, and it is then the
    image of the highlighted thumbnail; an index outside the images
    renders an image without a source and highlights no thumbnail. *)
Theorem main_image_follows_index (s : State) (p : Product) (page : Page) :
  product s = Some p ->
  render s = Ok (ProductView page) ->
  (page_image page = None <-> ~ index_in_range p s) /\
  (forall thumbs k t,
      page_thumbnails page = Some thumbs ->
      nth_error thumbs k = Some t ->
      thumb_selected t = true ->
      page_image page = Some (thumb_src t)) /\
  (~ index_in_range p s ->
   forall thumbs k t,
     page_thumbnails page = Some thumbs ->
     nth_error thumbs k = Some t ->
     thumb_selected t = false).
Proof.
  intros Hp Hrender.
  destruct (render_page_fields _ _ _ (render_product_view _ _ _ Hp Hrender))
    as (_ & -> & -> & _).
  split; [apply index_none|]. split.
  - intros thumbs k t Hthumbs Ht Hselected.
    destruct (thumbnail_nth _ _ _ _ _ Hthumbs Ht) as (_ & Hsrc & _).
    destruct (thumbnail_selected_nth _ _ _ _ _ Hthumbs Ht) as [Hk _].
    specialize (Hk Hselected).
    unfold Js.index. rewrite <- Hk.
    destruct (Z.ltb_spec (Z.of_nat k) 0); [lia|].
    rewrite Nat2Z.id. exact Hsrc.
  - intros Hout thumbs k t Hthumbs Ht.
    destruct (thumbnail_nth _ _ _ _ _ Hthumbs Ht) as (Htarget & _ & Hrange).
    destruct (thumbnail_selected_nth _ _ _ _ _ Hthumbs Ht) as [Hk _].
    destruct (thumb_selected t); [|reflexivity].
    exfalso. apply Hout. unfold index_in_range.
    rewrite <- (Hk eq_refl), <- Htarget. exact Hrange.
Qed.

Lemma main_image_follows_index_witness :
  exists page,
    render (handleNextImage phone (ready phone)) = Ok (ProductView page) /\
    page_image page <> None.
Proof.
  eexists. split; [reflexivity|].
  intros Hnone.
  apply (main_image_follows_index (handleNextImage phone (ready phone)) phone
           _ eq_refl eq_refl) in Hnone.
  apply Hnone. unfold index_in_range. cbn. lia.
Defined.

(** X15. On every rendered product page the button and the panel
    agree: the button reads "Hide Reviews" exactly when the panel is on
    the page and "Show Reviews" exactly when it is not. *)
Theorem reviews_button_matches_panel (s : State) (p : Product) (page : Page) :
  product s = Some p ->
  render s = Ok (ProductView page) ->
  (page_reviews_button page = "Hide Reviews" <-> page_reviews page <> None) /\
  (page_reviews_button page = "Show Reviews" <-> page_reviews page = None).
Proof.
  intros Hp Hrender.
  pose proof (render_product_view _ _ _ Hp Hrender) as Hpage.
  rewrite (render_page_button _ _ _ Hpage).
  destruct (render_page_fields _ _ _ Hpage) as (_ & _ & _ & _ & Hpanel).
  destruct (reviewsVisible s).
  - destruct Hpanel as (panel & _ & ->).
    repeat split; try discriminate; intros H; congruence.
  - rewrite Hpanel. repeat split; try discriminate; intros H; congruence.
Qed.

Lemma reviews_button_matches_panel_witness :
  exists page,
    render (handleToggleReviews (ready lamp) (ready lamp)) =
      Ok (ProductView page) /\
    page_reviews page <> None.
Proof.
  eexists. split; [reflexivity|].
  apply (reviews_button_matches_panel
           (handleToggleReviews (ready lamp) (ready lamp)) lamp _
           eq_refl eq_refl).
  reflexivity.
Defined.

(** ** Requests and clicks on the mounted component *)

(** X16. A request that settles commits its result whether or not it
    is the one for the current identifier and whether or not others are
    still in flight: the loading flag goes off, and the product of the
    settled request replaces the one on screen, or its failure sets the
    message. The component's identifier is not consulted. *)
Theorem settle_commits_unconditionally (api : string -> FetchOutcome)
    (a : App) (k : nat) (requested : string) :
  nth_error (pending a) k = Some requested ->
  let a' := step api a (Settle k) in
  id a' = id a /\
  loading (view a') = false /\
  match served api requested with
  | Some p => product (view a') = Some p /\ error (view a') = error (view a)
  | None => error (view a') = Some load_failed_message /\
            product (view a') = product (view a)
  end.
Proof.
  intros Hk a'. subst a'. cbn [step]. rewrite Hk. cbn [id view].
  rewrite loadProductDetails_resume_eq. unfold served.
  destruct (fetchProductDetails (api requested)); repeat split.
Qed.

Lemma settle_commits_unconditionally_witness :
  let a := step sample_api (step sample_api (mount "1") (IdChange "2"))
             (Settle 0) in
  id a = "2" /\ pending a = ["2"] /\ loading (view a) = false /\
  product (view a) = Some phone.
Proof.
  cbv zeta. split; [reflexivity|]. split; [reflexivity|].
  destruct (settle_commits_unconditionally sample_api
              (step sample_api (mount "1") (IdChange "2")) 0 "1" eq_refl)
    as (_ & Hloading & Hproduct & _).
  split; [exact Hloading | exact Hproduct].
Defined.

Lemma remove_nth_length {A} (l : list A) :
  forall k, (k < List.length l)%nat ->
            List.length (remove_nth k l) = (List.length l - 1)%nat.
Proof.
  induction l as [|x l IH]; intros k Hk; cbn [List.length] in *; [lia|].
  destruct k as [|k]; cbn [remove_nth List.length]; [lia|].
  rewrite IH by lia. lia.
Qed.

(** X17. Requests are issued by identifier changes only, one each: a
    change to a different identifier adds one request in flight, a
    render with the same identifier adds none, a settling request
    removes itself, and no click starts or drops a request. *)
Theorem one_request_per_identifier_change (api : string -> FetchOutcome)
    (a : App) (ev : Event) :
  List.length (pending (step api a ev)) =
  match ev with
  | IdChange new_id =>
      if String.eqb new_id (id a) then List.length (pending a)
      else S (List.length (pending a))
  | Settle k =>
      if (k <? List.length (pending a))%nat
      then (List.length (pending a) - 1)%nat
      else List.length (pending a)
  | _ => List.length (pending a)
  end.
Proof.
  destruct ev as [new_id|k| | |k|]; cbn [step].
  - destruct (String.eqb new_id (id a)); [reflexivity|].
    cbn [pending]. rewrite length_app. cbn. lia.
  - destruct (Nat.ltb_spec k (List.length (pending a))) as [Hlt|Hge].
    + destruct (nth_error (pending a) k) eqn:Hk.
      * cbn [pending]. apply remove_nth_length. exact Hlt.
      * apply nth_error_None in Hk. lia.
    + apply nth_error_None in Hge. rewrite Hge. reflexivity.
  - unfold click. destruct (render (view a)) as [[| |page]|];
      try reflexivity. destruct (product (view a)); reflexivity.
  - unfold click. destruct (render (view a)) as [[| |page]|];
      try reflexivity. destruct (product (view a)); reflexivity.
  - unfold click. destruct (render (view a)) as [[| |page]|];
      try reflexivity. destruct (product (view a)); reflexivity.
  - unfold click. destruct (render (view a)) as [[| |page]|];
      try reflexivity. destruct (product (view a)); reflexivity.
Qed.

(** X18. A click changes the cell of its control and nothing else: the
    identifier, the requests in flight, the product, the loading flag
    and the error are as before; the arrows and the thumbnails leave
    the visibility of the reviews alone, and the reviews button leaves
    the carousel index alone. *)
Theorem clicks_touch_only_their_cell (api : string -> FetchOutcome)
    (a : App) (ev : Event) :
  is_click ev = true ->
  let a' := step api a ev in
  id a' = id a /\ pending a' = pending a /\
  product (view a') = product (view a) /\
  loading (view a') = loading (view a) /\
  error (view a') = error (view a) /\
  match ev with
  | ClickToggleReviews => currentImageIndex (view a') = currentImageIndex (view a)
  | _ => reviewsVisible (view a') = reviewsVisible (view a)
  end.
Proof.
  intros Hclick a'. subst a'.
  destruct ev as [new_id|k| | |k|]; try discriminate Hclick; cbn [step];
    unfold click;
    destruct (render (view a)) as [[| |page]|];
    try (repeat split; fail);
    destruct (product (view a)) eqn:Hp;
    try (repeat split; solve [reflexivity | exact Hp]).
  cbn [id pending view].
  destruct (page_thumbnails page) as [thumbs|];
    [|repeat split; solve [reflexivity | exact Hp]].
  destruct (nth_error thumbs k); repeat split; solve [reflexivity | exact Hp].
Qed.

Lemma clicks_touch_only_their_cell_witness :
  pending (step sample_api (run sample_api (mount "1") [Settle 0]) ClickNext) =
  pending (run sample_api (mount "1") [Settle 0]).
Proof.
  apply (clicks_touch_only_their_cell sample_api
           (run sample_api (mount "1") [Settle 0]) ClickNext).
  reflexivity.
Defined.

(** X19. A review whose rating is a number from 0 to 5 is rendered, and
    its card shows the rating rounded half up: [n] glyphs, [n] being the
    integer from 0 to 5 with [n - 1/2 <= rating < n + 1/2]. *)
Theorem review_card_stars_round_half_up (r : Review.t) (k : Z) (q : Q) :
  Review.rating r = Number q ->
  (0 <= q <= 5)%Q ->
  exists (c : ReviewCard) (n : Z),
    render_review (r, k) = Ok c /\
    0 <= n <= 5 /\
    (inject_Z n - (1 # 2) <= q /\ q < inject_Z n + (1 # 2))%Q /\
    card_stars c = join (repeat star (Z.to_nat n)).
Proof.
  intros Hrating Hq.
  destruct (review_stars_round_half_up q Hq) as (n & Hround & Hn & Hglyphs).
  unfold render_review, stars. cbn [fst snd]. rewrite Hrating, Hglyphs.
  cbn [Js.bind]. eexists. exists n. split; [reflexivity|].
  split; [exact Hn|]. split; [|reflexivity].
  apply Math_round_half_up. exact Hround.
Qed.

Lemma review_card_stars_round_half_up_witness :
  exists (c : ReviewCard) (n : Z),
    render_review
      ({| Review.reviewerName := "Ann"; Review.date := "2024-05-01";
          Review.comment := "Great"; Review.rating := Number (5 # 2) |}, 0)
    = Ok c /\
    0 <= n <= 5 /\
    (inject_Z n - (1 # 2) <= 5 # 2 /\ 5 # 2 < inject_Z n + (1 # 2))%Q /\
    card_stars c = join (repeat star (Z.to_nat n)).
Proof.
  apply (review_card_stars_round_half_up _ 0 (5 # 2)); [reflexivity|].
  split; discriminate.
Defined.
